(** * LightSPA (hugo-spa.js): the navigation and history state machine

    A shallow embedding of [src/hugo-spa.js].  The class [LightSPA] keeps its
    state in three places: its own fields ([this.config], [this.mainContent],
    [this.currentIndex], ...), the live document (the content element, the
    title, the scroll offset) and the browser's session history.  All three are
    fields of one record [State], and every method is a function that takes
    the state and returns the next one together with an [Outcome] telling
    which way the method left (guard, end of the [try] block, [catch] block).

    The browser is a set of ports, record [Browser]: the selector queries on
    the live document, [fetch], [DOMParser.parseFromString] and the check
    [history.pushState] makes before it accepts an entry.  The methods are
    parameterised by it.

    An [async] method is run to completion in one step: the interleaving of two
    navigations in flight is outside this development.  So is what the browser
    does to the viewport on its own when the history is traversed: the
    viewport is where [window.scrollTo] and the user's scrolling put it. *)

From Stdlib Require Import ZArith Ascii.
From stdpp Require Import gmap strings list.

Local Open Scope string_scope.
Local Open Scope list_scope.
Local Open Scope Z_scope.

(** ** Data *)

(** A DOM node is named by its address in the store [dom]; a field that holds
    an element holds its address. *)
Abbreviation NodeId := nat.

(** The part of an element the class reads or writes. *)
Record Element := mkElement {
  tagName : string;
  innerHTML : string;
  style_opacity : string;                    (* element.style.opacity *)
  dataset_spaInitialized : option string;    (* element.dataset.spaInitialized *)
}.

(** The anchor a click lands on, with the properties [handleClick] uses. *)
Record Anchor := mkAnchor {
  a_host : string;       (* link.host *)
  a_href : string;       (* link.href, already absolute *)
  a_target : string;     (* link.target *)
  a_rel : string;        (* link.rel *)
}.

(** A click event: [closest_a] is the value of [e.target.closest('a')]. *)
Record ClickEvent := mkClickEvent {
  closest_a : option Anchor;
  defaultPrevented : bool;
}.

(** The object stored with a history slot (lines 70-77 and 149-155).  The
    handler tests [content] and [scrollPosition] for presence, so both are
    optional; scroll offsets are CSS pixels, stored and restored untouched. *)
Record HistoryState := mkHistoryState {
  st_url : string;
  st_title : string;
  st_content : option string;
  st_scrollPosition : option (Z * Z);
  st_isInitialState : bool;
  st_index : Z;
}.

(** One slot of the session history: the state object (or [null]) and the
    URL the slot shows. *)
Record HistoryEntry := mkHistoryEntry {
  h_state : option HistoryState;
  h_url : string;
}.

(** [new CustomEvent('spaContentUpdated', { detail: { url, pushState } })]. *)
Record CustomEvent := mkCustomEvent {
  ev_type : string;
  detail_url : string;
  detail_pushState : bool;
}.

Record Config := mkConfig {
  mainContentSelector : string;
  navigationSelector : string;
}.

(** The argument of the constructor: each option may be left out. *)
Record ConfigOptions := mkConfigOptions {
  opt_mainContentSelector : option string;
  opt_navigationSelector : option string;
}.

(** What can be thrown inside [navigateTo] and the handlers. *)
Inductive Exn :=
| HttpError (status : nat)       (* line 132 *)
| NetworkError                   (* fetch rejects *)
| ContentNotFoundError           (* line 140 *)
| HistoryError                   (* history.pushState refuses the entry *)
| TypeError.                     (* property access on a null mainContent *)

(** How a method was left. *)
Inductive Outcome :=
| Skipped                (* navigateTo: the guard of line 122 returned *)
| Completed              (* navigateTo: the try block ran to its end *)
| Caught (e : Exn)       (* navigateTo: the catch block ran *)
| Uncaught (e : Exn)     (* the exception left the method *)
| Restored               (* handlePopState: content replayed from the state *)
| Ignored                (* handleClick: no anchor, or an external one *)
| NotHandled.            (* no listener was attached for the event *)

(** *** The network and the parser *)

Record Response := mkResponse {
  status : nat;
  text : string;
}.

(** [response.ok]: the status is in the range 200-299. *)
Definition ok (r : Response) : bool :=
  ((200 <=? status r) && (status r <=? 299))%nat.

Inductive FetchResult :=
| Rejected
| Resolved (r : Response).

(** A parsed document, as far as [navigateTo] looks at it: its title and, for
    a selector, the inner markup of the first element that matches. *)
Record ParsedDocument := mkParsedDocument {
  doc_title : string;
  doc_querySelector : string -> option string;
}.

(** The browser's ports.  [fetch t url] is the result of the request issued
    when [t] requests had been issued before it. *)
Record Browser := mkBrowser {
  querySelector : string -> option NodeId;
  querySelectorAll : string -> list NodeId;
  getElementById : string -> option NodeId;
  fetch : nat -> string -> FetchResult;
  parseFromString : string -> ParsedDocument;
  pushState_accepts : HistoryState -> string -> bool;
}.

(** *** The state *)

Record State := mkState {
  (* window and document *)
  location_href : string;
  location_host : string;
  document_title : string;
  scrollX : Z;
  scrollY : Z;
  dom : gmap nat Element;
  (* session history *)
  history_entries : list HistoryEntry;
  history_position : nat;
  (* listeners attached by init *)
  popstate_listener : bool;
  click_listener : bool;
  (* traces: events dispatched on the document, requests issued *)
  dispatched : list CustomEvent;
  requests : list string;
  (* fields of the LightSPA instance *)
  config : Config;
  mainContent : option NodeId;
  navigationElements : list NodeId;
  searchResults : option NodeId;
  currentIndex : Z;
}.

(** *** Field updates: [set_f v s] is [s] with field [f] set to [v]. *)

Definition set_location_href (v : string) (s : State) : State :=
  {| location_href := v; location_host := location_host s;
     document_title := document_title s; scrollX := scrollX s;
     scrollY := scrollY s; dom := dom s;
     history_entries := history_entries s;
     history_position := history_position s;
     popstate_listener := popstate_listener s;
     click_listener := click_listener s; dispatched := dispatched s;
     requests := requests s; config := config s;
     mainContent := mainContent s;
     navigationElements := navigationElements s;
     searchResults := searchResults s; currentIndex := currentIndex s |}.

Definition set_document_title (v : string) (s : State) : State :=
  {| location_href := location_href s; location_host := location_host s;
     document_title := v; scrollX := scrollX s; scrollY := scrollY s;
     dom := dom s; history_entries := history_entries s;
     history_position := history_position s;
     popstate_listener := popstate_listener s;
     click_listener := click_listener s; dispatched := dispatched s;
     requests := requests s; config := config s;
     mainContent := mainContent s;
     navigationElements := navigationElements s;
     searchResults := searchResults s; currentIndex := currentIndex s |}.

Definition set_scrollX (v : Z) (s : State) : State :=
  {| location_href := location_href s; location_host := location_host s;
     document_title := document_title s; scrollX := v; scrollY := scrollY s;
     dom := dom s; history_entries := history_entries s;
     history_position := history_position s;
     popstate_listener := popstate_listener s;
     click_listener := click_listener s; dispatched := dispatched s;
     requests := requests s; config := config s;
     mainContent := mainContent s;
     navigationElements := navigationElements s;
     searchResults := searchResults s; currentIndex := currentIndex s |}.

Definition set_scrollY (v : Z) (s : State) : State :=
  {| location_href := location_href s; location_host := location_host s;
     document_title := document_title s; scrollX := scrollX s; scrollY := v;
     dom := dom s; history_entries := history_entries s;
     history_position := history_position s;
     popstate_listener := popstate_listener s;
     click_listener := click_listener s; dispatched := dispatched s;
     requests := requests s; config := config s;
     mainContent := mainContent s;
     navigationElements := navigationElements s;
     searchResults := searchResults s; currentIndex := currentIndex s |}.

Definition set_dom (v : gmap nat Element) (s : State) : State :=
  {| location_href := location_href s; location_host := location_host s;
     document_title := document_title s; scrollX := scrollX s;
     scrollY := scrollY s; dom := v; history_entries := history_entries s;
     history_position := history_position s;
     popstate_listener := popstate_listener s;
     click_listener := click_listener s; dispatched := dispatched s;
     requests := requests s; config := config s;
     mainContent := mainContent s;
     navigationElements := navigationElements s;
     searchResults := searchResults s; currentIndex := currentIndex s |}.

Definition set_history_entries (v : list HistoryEntry) (s : State) : State :=
  {| location_href := location_href s; location_host := location_host s;
     document_title := document_title s; scrollX := scrollX s;
     scrollY := scrollY s; dom := dom s; history_entries := v;
     history_position := history_position s;
     popstate_listener := popstate_listener s;
     click_listener := click_listener s; dispatched := dispatched s;
     requests := requests s; config := config s;
     mainContent := mainContent s;
     navigationElements := navigationElements s;
     searchResults := searchResults s; currentIndex := currentIndex s |}.

Definition set_history_position (v : nat) (s : State) : State :=
  {| location_href := location_href s; location_host := location_host s;
     document_title := document_title s; scrollX := scrollX s;
     scrollY := scrollY s; dom := dom s;
     history_entries := history_entries s; history_position := v;
     popstate_listener := popstate_listener s;
     click_listener := click_listener s; dispatched := dispatched s;
     requests := requests s; config := config s;
     mainContent := mainContent s;
     navigationElements := navigationElements s;
     searchResults := searchResults s; currentIndex := currentIndex s |}.

Definition set_popstate_listener (v : bool) (s : State) : State :=
  {| location_href := location_href s; location_host := location_host s;
     document_title := document_title s; scrollX := scrollX s;
     scrollY := scrollY s; dom := dom s;
     history_entries := history_entries s;
     history_position := history_position s; popstate_listener := v;
     click_listener := click_listener s; dispatched := dispatched s;
     requests := requests s; config := config s;
     mainContent := mainContent s;
     navigationElements := navigationElements s;
     searchResults := searchResults s; currentIndex := currentIndex s |}.

Definition set_click_listener (v : bool) (s : State) : State :=
  {| location_href := location_href s; location_host := location_host s;
     document_title := document_title s; scrollX := scrollX s;
     scrollY := scrollY s; dom := dom s;
     history_entries := history_entries s;
     history_position := history_position s;
     popstate_listener := popstate_listener s; click_listener := v;
     dispatched := dispatched s; requests := requests s; config := config s;
     mainContent := mainContent s;
     navigationElements := navigationElements s;
     searchResults := searchResults s; currentIndex := currentIndex s |}.

Definition set_dispatched (v : list CustomEvent) (s : State) : State :=
  {| location_href := location_href s; location_host := location_host s;
     document_title := document_title s; scrollX := scrollX s;
     scrollY := scrollY s; dom := dom s;
     history_entries := history_entries s;
     history_position := history_position s;
     popstate_listener := popstate_listener s;
     click_listener := click_listener s; dispatched := v;
     requests := requests s; config := config s;
     mainContent := mainContent s;
     navigationElements := navigationElements s;
     searchResults := searchResults s; currentIndex := currentIndex s |}.

Definition set_requests (v : list string) (s : State) : State :=
  {| location_href := location_href s; location_host := location_host s;
     document_title := document_title s; scrollX := scrollX s;
     scrollY := scrollY s; dom := dom s;
     history_entries := history_entries s;
     history_position := history_position s;
     popstate_listener := popstate_listener s;
     click_listener := click_listener s; dispatched := dispatched s;
     requests := v; config := config s; mainContent := mainContent s;
     navigationElements := navigationElements s;
     searchResults := searchResults s; currentIndex := currentIndex s |}.

Definition set_config (v : Config) (s : State) : State :=
  {| location_href := location_href s; location_host := location_host s;
     document_title := document_title s; scrollX := scrollX s;
     scrollY := scrollY s; dom := dom s;
     history_entries := history_entries s;
     history_position := history_position s;
     popstate_listener := popstate_listener s;
     click_listener := click_listener s; dispatched := dispatched s;
     requests := requests s; config := v; mainContent := mainContent s;
     navigationElements := navigationElements s;
     searchResults := searchResults s; currentIndex := currentIndex s |}.

Definition set_mainContent (v : option NodeId) (s : State) : State :=
  {| location_href := location_href s; location_host := location_host s;
     document_title := document_title s; scrollX := scrollX s;
     scrollY := scrollY s; dom := dom s;
     history_entries := history_entries s;
     history_position := history_position s;
     popstate_listener := popstate_listener s;
     click_listener := click_listener s; dispatched := dispatched s;
     requests := requests s; config := config s; mainContent := v;
     navigationElements := navigationElements s;
     searchResults := searchResults s; currentIndex := currentIndex s |}.

Definition set_navigationElements (v : list NodeId) (s : State) : State :=
  {| location_href := location_href s; location_host := location_host s;
     document_title := document_title s; scrollX := scrollX s;
     scrollY := scrollY s; dom := dom s;
     history_entries := history_entries s;
     history_position := history_position s;
     popstate_listener := popstate_listener s;
     click_listener := click_listener s; dispatched := dispatched s;
     requests := requests s; config := config s;
     mainContent := mainContent s; navigationElements := v;
     searchResults := searchResults s; currentIndex := currentIndex s |}.

Definition set_searchResults (v : option NodeId) (s : State) : State :=
  {| location_href := location_href s; location_host := location_host s;
     document_title := document_title s; scrollX := scrollX s;
     scrollY := scrollY s; dom := dom s;
     history_entries := history_entries s;
     history_position := history_position s;
     popstate_listener := popstate_listener s;
     click_listener := click_listener s; dispatched := dispatched s;
     requests := requests s; config := config s;
     mainContent := mainContent s;
     navigationElements := navigationElements s; searchResults := v;
     currentIndex := currentIndex s |}.

Definition set_currentIndex (v : Z) (s : State) : State :=
  {| location_href := location_href s; location_host := location_host s;
     document_title := document_title s; scrollX := scrollX s;
     scrollY := scrollY s; dom := dom s;
     history_entries := history_entries s;
     history_position := history_position s;
     popstate_listener := popstate_listener s;
     click_listener := click_listener s; dispatched := dispatched s;
     requests := requests s; config := config s;
     mainContent := mainContent s;
     navigationElements := navigationElements s;
     searchResults := searchResults s; currentIndex := v |}.

(** *** Element and window primitives *)

Definition set_innerHTML (v : string) (e : Element) : Element :=
  {| tagName := tagName e; innerHTML := v; style_opacity := style_opacity e;
     dataset_spaInitialized := dataset_spaInitialized e |}.

Definition set_style_opacity (v : string) (e : Element) : Element :=
  {| tagName := tagName e; innerHTML := innerHTML e; style_opacity := v;
     dataset_spaInitialized := dataset_spaInitialized e |}.

Definition set_dataset_spaInitialized (v : option string) (e : Element) : Element :=
  {| tagName := tagName e; innerHTML := innerHTML e;
     style_opacity := style_opacity e; dataset_spaInitialized := v |}.

(** [node.innerHTML = v] and [node.style.opacity = v]: the element at address
    [n] is updated in place. *)
Definition write_innerHTML (n : NodeId) (v : string) (s : State) : State :=
  set_dom (alter (set_innerHTML v) n (dom s)) s.

Definition write_opacity (n : NodeId) (v : string) (s : State) : State :=
  set_dom (alter (set_style_opacity v) n (dom s)) s.

(** [node.innerHTML] read back. *)
Definition read_innerHTML (n : NodeId) (s : State) : string :=
  match dom s !! n with
  | Some e => innerHTML e
  | None => ""
  end.

Definition read_opacity (n : NodeId) (s : State) : string :=
  match dom s !! n with
  | Some e => style_opacity e
  | None => ""
  end.

(** [window.scrollTo(x, y)]. *)
Definition scrollTo (x y : Z) (s : State) : State :=
  set_scrollY y (set_scrollX x s).

(** [history.replaceState(state, title, url)]: the active slot is
    overwritten, no slot is added. *)
Definition history_replaceState (st : HistoryState) (url : string) (s : State) : State :=
  set_location_href url
    (set_history_entries
       (<[history_position s := mkHistoryEntry (Some st) url]> (history_entries s)) s).

(** [history.pushState(state, title, url)]: the slots after the active one
    are dropped, the new slot is added and becomes the active one. *)
Definition history_pushState (st : HistoryState) (url : string) (s : State) : State :=
  set_location_href url
    (set_history_position (S (history_position s))
       (set_history_entries
          (take (S (history_position s)) (history_entries s)
             ++ [mkHistoryEntry (Some st) url]) s)).

(** [document.dispatchEvent(event)]. *)
Definition dispatchEvent (ev : CustomEvent) (s : State) : State :=
  set_dispatched (dispatched s ++ [ev]) s.

(** JavaScript truthiness of a string that may be missing: [undefined] and
    the empty string are falsy. *)
Definition truthy (v : option string) : bool :=
  match v with
  | Some "" => false
  | Some _ => true
  | None => false
  end.

Definition dquote : string := String "034"%char EmptyString.

(** The defaults of lines 39-40. *)
Definition default_mainContentSelector : string :=
  "main[role=" +:+ dquote +:+ "main" +:+ dquote +:+ "]".
Definition default_navigationSelector : string := "[data-spa-nav]".

(** ** The class *)

Section LightSPA.

Variable b : Browser.

(** Lines 82-87. *)
Definition initializeEventListeners (s : State) : State :=
  match searchResults s with
  | None => s
  | Some r =>
      match dom s !! r with
      | None => s
      | Some e =>
          if negb (truthy (dataset_spaInitialized e))
          then set_dom (<[r := set_dataset_spaInitialized (Some "true") e]> (dom s)) s
          else s
      end
  end.

(** Lines 112-114. *)
Definition isInternalLink (link : Anchor) (s : State) : bool :=
  bool_decide (a_host link = location_host s).

(** The [catch] block of lines 171-173, entered with exception [e]. *)
Definition navigateTo_catch (n : NodeId) (e : Exn) (s : State) : State * Outcome :=
  (write_opacity n "1" s, Caught e).

(** Lines 160-170: the end of the [try] block. *)
Definition navigateTo_finish (n : NodeId) (url : string) (pushState : bool)
    (s : State) : State * Outcome :=
  let s := write_opacity n "1" s in
  let s := initializeEventListeners s in
  let s := dispatchEvent (mkCustomEvent "spaContentUpdated" url pushState) s in
  (s, Completed).

(** Lines 120-174.  With a null [this.mainContent] the first statement of the
    [try] block throws and so does the [catch] block: the exception leaves the
    method. *)
Definition navigateTo (url : string) (pushState : bool) (s : State) : State * Outcome :=
  if bool_decide (url = location_href s) && negb pushState then (s, Skipped)
  else
    match mainContent s with
    | None => (s, Uncaught TypeError)
    | Some n =>
        let s := write_opacity n "0.5" s in
        let response := fetch b (length (requests s)) url in
        let s := set_requests (requests s ++ [url]) s in
        match response with
        | Rejected => navigateTo_catch n NetworkError s
        | Resolved response =>
            if negb (ok response) then navigateTo_catch n (HttpError (status response)) s
            else
              let html := text response in
              let doc := parseFromString b html in
              match doc_querySelector doc (mainContentSelector (config s)) with
              | None => navigateTo_catch n ContentNotFoundError s
              | Some newContent =>
                  let s := write_innerHTML n newContent s in
                  let s := set_document_title (doc_title doc) s in
                  if pushState then
                    let s := set_currentIndex (currentIndex s + 1) s in
                    let state :=
                      {| st_url := url; st_title := document_title s;
                         st_content := Some (read_innerHTML n s);
                         st_scrollPosition := Some (0, 0);
                         st_isInitialState := false;
                         st_index := currentIndex s |} in
                    if pushState_accepts b state url then
                      let s := history_pushState state url s in
                      let s := scrollTo 0 0 s in
                      navigateTo_finish n url pushState s
                    else navigateTo_catch n HistoryError s
                  else navigateTo_finish n url pushState s
              end
        end
    end.

(** Lines 179-204.  The calls to [navigateTo] are not awaited; run to
    completion they give the same state. *)
Definition handlePopState (state : option HistoryState) (s : State) : State * Outcome :=
  match state with
  | None => navigateTo (location_href s) false s
  | Some st =>
      let s := set_currentIndex (st_index st) s in
      match st_content st with
      | Some content =>
          if truthy (Some content) then
            match mainContent s with
            | None => (s, Uncaught TypeError)
            | Some n =>
                let s := write_innerHTML n content s in
                let s := set_document_title (st_title st) s in
                let s := write_opacity n "1" s in
                let s :=
                  match st_scrollPosition st with
                  | Some (x, y) => scrollTo x y s
                  | None => s
                  end in
                (s, Restored)
            end
          else navigateTo (st_url st) false s
      | None => navigateTo (st_url st) false s
      end
  end.

(** Lines 93-105.  The handler returns the event as it leaves it: the anchor
    with its attributes, and whether [preventDefault] was called. *)
Definition handleClick (e : ClickEvent) (s : State) : State * ClickEvent * Outcome :=
  match closest_a e with
  | None => (s, e, Ignored)
  | Some link =>
      if isInternalLink link s then
        let e := mkClickEvent (closest_a e) true in
        let '(s, o) := navigateTo (a_href link) true s in
        (s, e, o)
      else
        let link := mkAnchor (a_host link) (a_href link) "_blank" (a_rel link) in
        let link := mkAnchor (a_host link) (a_href link) (a_target link) "noopener noreferrer" in
        (s, mkClickEvent (Some link) (defaultPrevented e), Ignored)
  end.

(** Lines 53-80. *)
Definition init (s : State) : State :=
  let s := set_mainContent (querySelector b (mainContentSelector (config s))) s in
  let s := set_navigationElements (querySelectorAll b (navigationSelector (config s))) s in
  let s := set_searchResults (getElementById b "search-results") s in
  match mainContent s with
  | None => s
  | Some n =>
      let s := set_popstate_listener true s in
      let s := set_click_listener true s in
      let initialState :=
        {| st_url := location_href s; st_title := document_title s;
           st_content := Some (read_innerHTML n s);
           st_scrollPosition := Some (scrollX s, scrollY s);
           st_isInitialState := true;
           st_index := 0 |} in
      let s := history_replaceState initialState (location_href s) s in
      set_currentIndex 0 s
  end.

(** Lines 36-47: the options are laid over the defaults, then [init] runs. *)
Definition merge_config (options : ConfigOptions) : Config :=
  {| mainContentSelector :=
       default default_mainContentSelector (opt_mainContentSelector options);
     navigationSelector :=
       default default_navigationSelector (opt_navigationSelector options) |}.

Definition constructor (options : ConfigOptions) (s : State) : State :=
  init (set_config (merge_config options) s).

(** *** The browser delivering events *)

(** A click reaches [handleClick] when the listener of line 67 is attached. *)
Definition dispatch_click (e : ClickEvent) (s : State) : State * ClickEvent * Outcome :=
  if click_listener s then handleClick e s else (s, e, NotHandled).

(** A [popstate] event reaches [handlePopState] when the listener of line 64
    is attached. *)
Definition dispatch_popstate (state : option HistoryState) (s : State) : State * Outcome :=
  if popstate_listener s then handlePopState state s else (s, NotHandled).

(** The browser moves to slot [k] of the session history (back, forward or
    [history.go]): the slot becomes the active one, the location becomes the
    slot's URL, then [popstate] is fired with the slot's state. *)
Definition traverse (k : nat) (s : State) : State * Outcome :=
  match history_entries s !! k with
  | None => (s, NotHandled)
  | Some h =>
      dispatch_popstate (h_state h)
        (set_location_href (h_url h) (set_history_position k s))
  end.

(** The back button. *)
Definition history_back (s : State) : State * Outcome :=
  match history_position s with
  | O => (s, NotHandled)
  | S k => traverse k s
  end.

(** The user scrolls the viewport. *)
Definition user_scroll (x y : Z) (s : State) : State :=
  set_scrollY y (set_scrollX x s).

(** *** Runs *)

(** What can happen to a page once the instance exists. *)
Inductive Action :=
| Click (e : ClickEvent)
| Go (k : nat)
| PopState (state : option HistoryState)
| Navigate (url : string) (pushState : bool)
| Scroll (x y : Z).

Definition step (a : Action) (s : State) : State :=
  match a with
  | Click e => (dispatch_click e s).1.1
  | Go k => (traverse k s).1
  | PopState state => (dispatch_popstate state s).1
  | Navigate url pushState => (navigateTo url pushState s).1
  | Scroll x y => user_scroll x y s
  end.

Definition run (acts : list Action) (s : State) : State :=
  foldl (fun s a => step a s) s acts.

(** A sequence of forward navigations, one per URL, and whether each of them
    ran to the end of its [try] block. *)
Definition forward (urls : list string) (s : State) : State :=
  foldl (fun s url => (navigateTo url true s).1) s urls.

Definition is_completed (o : Outcome) : bool :=
  match o with
  | Completed => true
  | _ => false
  end.

Fixpoint all_completed (urls : list string) (s : State) : bool :=
  match urls with
  | [] => true
  | url :: urls =>
      is_completed (navigateTo url true s).2
        && all_completed urls (navigateTo url true s).1
  end.

End LightSPA.

(** [index] of the state stored with each slot. *)
Definition indices (entries : list HistoryEntry) : list (option Z) :=
  (fun h => st_index <$> h_state h) <$> entries.

(** The ways a navigation fails before anything is swapped in: the request
    issued from [s] for [url] is rejected, answered with a status outside
    200-299, or answered with a document in which the content selector
    matches nothing. *)
Inductive fails (b : Browser) (s : State) (url : string) : Exn -> Prop :=
| fails_network :
    fetch b (length (requests s)) url = Rejected ->
    fails b s url NetworkError
| fails_http r :
    fetch b (length (requests s)) url = Resolved r ->
    ok r = false ->
    fails b s url (HttpError (status r))
| fails_content r :
    fetch b (length (requests s)) url = Resolved r ->
    ok r = true ->
    doc_querySelector (parseFromString b (text r))
      (mainContentSelector (config s)) = None ->
    fails b s url ContentNotFoundError.

(** The request issued from [s] for [url] is answered with a 2xx document
    whose content element holds [newContent] and whose title is [title]. *)
Definition serves (b : Browser) (s : State) (url newContent title : string) : Prop :=
  exists r,
    fetch b (length (requests s)) url = Resolved r /\
    ok r = true /\
    doc_querySelector (parseFromString b (text r))
      (mainContentSelector (config s)) = Some newContent /\
    doc_title (parseFromString b (text r)) = title.

(** ** A site to run the class on *)

Module Site.

Definition index_url : string := "https://example.org/index".
Definition about_url : string := "https://example.org/about".
Definition contact_url : string := "https://example.org/contact".
Definition broken_url : string := "https://example.org/broken".
Definition bare_url : string := "https://example.org/bare".

(** The server: two pages, a URL answered with status 500, a page without
    the content element; anything else does not answer. *)
Definition site_fetch (t : nat) (url : string) : FetchResult :=
  if bool_decide (url = about_url) then Resolved (mkResponse 200 "about.html")
  else if bool_decide (url = contact_url) then Resolved (mkResponse 200 "contact.html")
  else if bool_decide (url = index_url) then Resolved (mkResponse 200 "index.html")
  else if bool_decide (url = broken_url) then Resolved (mkResponse 500 "oops")
  else if bool_decide (url = bare_url) then Resolved (mkResponse 200 "bare.html")
  else Rejected.

Definition only_main (markup : string) (selector : string) : option string :=
  if bool_decide (selector = default_mainContentSelector) then Some markup else None.

Definition site_parse (html : string) : ParsedDocument :=
  if bool_decide (html = "about.html") then mkParsedDocument "About" (only_main "About")
  else if bool_decide (html = "contact.html") then mkParsedDocument "Contact" (only_main "Contact")
  else if bool_decide (html = "index.html") then mkParsedDocument "Home" (only_main "Home")
  else mkParsedDocument "" (fun _ => None).

(** Node 1 is the [main] element of the live document. *)
Definition browser : Browser :=
  {| querySelector := fun sel =>
       if bool_decide (sel = default_mainContentSelector) then Some 1%nat else None;
     querySelectorAll := fun _ => [];
     getElementById := fun _ => None;
     fetch := site_fetch;
     parseFromString := site_parse;
     pushState_accepts := fun _ _ => true |}.

(** The same browser showing a document without a [main] element. *)
Definition browser_without_main : Browser :=
  {| querySelector := fun _ => None;
     querySelectorAll := fun _ => [];
     getElementById := fun _ => None;
     fetch := site_fetch;
     parseFromString := site_parse;
     pushState_accepts := fun _ _ => true |}.

(** The page [/index] as the browser has loaded it, before the script runs. *)
Definition loaded : State :=
  {| location_href := index_url; location_host := "example.org";
     document_title := "Home"; scrollX := 0; scrollY := 0;
     dom := {[ 1%nat := mkElement "MAIN" "Home" "" None ]};
     history_entries := [mkHistoryEntry None index_url];
     history_position := 0;
     popstate_listener := false; click_listener := false;
     dispatched := []; requests := [];
     config := mkConfig "" ""; mainContent := None;
     navigationElements := []; searchResults := None; currentIndex := 0 |}.

Definition no_options : ConfigOptions := mkConfigOptions None None.

(** [new LightSPA()] on that page. *)
Definition started : State := constructor browser no_options loaded.

Definition link_to (host url : string) : Anchor := mkAnchor host url "" "".

End Site.

(** ** Auxiliary definitions for the statements *)

(** The state pushed by a forward navigation (lines 149-155). *)
Definition pushed_state (url title content : string) (index : Z) : HistoryState :=
  {| st_url := url; st_title := title; st_content := Some content;
     st_scrollPosition := Some (0, 0); st_isInitialState := false;
     st_index := index |}.

(** The state in which a successful navigation reaches line 148. *)
Definition swapped (n : NodeId) (url newContent title : string) (s : State) : State :=
  set_document_title title
    (write_innerHTML n newContent
       (set_requests (requests s ++ [url]) (write_opacity n "0.5" s))).

(** Store [d'] holds the elements of store [d] at the same addresses, each
    with the tag it had; an element that is neither the content element nor
    the search-results element is the same in both. *)
Definition store_kept (main search : option NodeId) (d d' : gmap nat Element) : Prop :=
  forall m,
    match d !! m, d' !! m with
    | Some e, Some e' =>
        tagName e' = tagName e /\
        (main <> Some m -> search <> Some m -> e' = e)
    | None, None => True
    | _, _ => False
    end.

(** The instance still refers to the elements it referred to, and they are
    still there. *)
Definition kept (s s' : State) : Prop :=
  mainContent s' = mainContent s /\
  searchResults s' = searchResults s /\
  store_kept (mainContent s) (searchResults s) (dom s) (dom s').

(** ** Properties *)

(** *** Reading back what was written *)

Lemma read_opacity_write n v s e :
  dom s !! n = Some e -> read_opacity n (write_opacity n v s) = v.
Proof.
  intros Hn. unfold read_opacity, write_opacity. simpl.
  rewrite lookup_alter_eq, Hn. reflexivity.
Qed.

Lemma read_innerHTML_write n v s e :
  dom s !! n = Some e -> read_innerHTML n (write_innerHTML n v s) = v.
Proof.
  intros Hn. unfold read_innerHTML, write_innerHTML. simpl.
  rewrite lookup_alter_eq, Hn. reflexivity.
Qed.

Lemma read_innerHTML_write_opacity n v s :
  read_innerHTML n (write_opacity n v s) = read_innerHTML n s.
Proof.
  unfold read_innerHTML, write_opacity. simpl.
  rewrite lookup_alter_eq. destruct (dom s !! n); reflexivity.
Qed.

Lemma read_opacity_write_innerHTML n v s :
  read_opacity n (write_innerHTML n v s) = read_opacity n s.
Proof.
  unfold read_opacity, write_innerHTML. simpl.
  rewrite lookup_alter_eq. destruct (dom s !! n); reflexivity.
Qed.

Lemma lookup_write_opacity n v s :
  dom (write_opacity n v s) !! n = set_style_opacity v <$> dom s !! n.
Proof. unfold write_opacity. simpl. apply lookup_alter_eq. Qed.

Lemma lookup_write_innerHTML n v s :
  dom (write_innerHTML n v s) !! n = set_innerHTML v <$> dom s !! n.
Proof. unfold write_innerHTML. simpl. apply lookup_alter_eq. Qed.

(** The guard of line 122 as a proposition. *)
Lemma guard_false (url href : string) (pushState : bool) :
  (url = href -> pushState = true) ->
  bool_decide (url = href) && negb pushState = false.
Proof.
  intros H. destruct pushState; simpl.
  - apply andb_false_r.
  - rewrite bool_decide_eq_false_2; [reflexivity|]. intros E. discriminate (H E).
Qed.

(** *** The failure path of [navigateTo] *)

(** Whatever the failure, the catch block leaves this state. *)
Lemma navigateTo_fails b url pushState s n e :
  mainContent s = Some n ->
  (url = location_href s -> pushState = true) ->
  fails b s url e ->
  navigateTo b url pushState s =
    (write_opacity n "1" (set_requests (requests s ++ [url]) (write_opacity n "0.5" s)),
     Caught e).
Proof.
  intros Hn Hg Hf. unfold navigateTo.
  rewrite (guard_false _ _ _ Hg), Hn. simpl.
  destruct Hf as [Hf | r Hf Hok | r Hf Hok Hq]; rewrite Hf.
  - reflexivity.
  - rewrite Hok. reflexivity.
  - rewrite Hok. simpl. rewrite Hq. reflexivity.
Qed.

(** Reduces the projections of updated states, and nothing else: the store
    operations stay folded. *)
Ltac fields :=
  cbn [location_href location_host document_title scrollX scrollY dom
       history_entries history_position popstate_listener click_listener
       dispatched requests config mainContent navigationElements
       searchResults currentIndex fst snd
       navigateTo_catch dispatchEvent history_pushState
       history_replaceState scrollTo user_scroll write_opacity write_innerHTML
       swapped
       set_location_href set_document_title set_scrollX set_scrollY set_dom
       set_history_entries set_history_position set_popstate_listener
       set_click_listener set_dispatched set_requests set_config
       set_mainContent set_navigationElements set_searchResults
       set_currentIndex] in *.

Lemma set_dom_same s : set_dom (dom s) s = s.
Proof. destruct s; reflexivity. Qed.

(** [initializeEventListeners] touches the store only, and there only the
    flag of the search-results element. *)
Lemma initializeEventListeners_store s :
  exists d,
    initializeEventListeners s = set_dom d s /\
    forall m,
      d !! m = dom s !! m \/
      (searchResults s = Some m /\
       exists e, dom s !! m = Some e /\
                 d !! m = Some (set_dataset_spaInitialized (Some "true") e)).
Proof.
  unfold initializeEventListeners.
  destruct (searchResults s) as [r|] eqn:Hr.
  2:{ exists (dom s). rewrite set_dom_same. split; [reflexivity|]. intros m. left. reflexivity. }
  destruct (dom s !! r) as [e|] eqn:He.
  2:{ exists (dom s). rewrite set_dom_same. split; [reflexivity|]. intros m. left. reflexivity. }
  destruct (negb (truthy (dataset_spaInitialized e))).
  - eexists. split; [reflexivity|]. intros m.
    destruct (decide (r = m)) as [<-|Hne].
    + right. split; [reflexivity|]. exists e. split; [assumption|].
      apply lookup_insert_eq.
    + left. apply lookup_insert_ne. assumption.
  - exists (dom s). rewrite set_dom_same. split; [reflexivity|]. intros m. left. reflexivity.
Qed.

(** The end of the [try] block: the indicator is cleared, the flag of the
    search-results element may be set, one event is dispatched. *)
Lemma navigateTo_finish_store n url pushState s :
  exists d,
    navigateTo_finish n url pushState s =
      (set_dispatched
         (dispatched s ++ [mkCustomEvent "spaContentUpdated" url pushState])
         (set_dom d s), Completed) /\
    forall m,
      d !! m = alter (set_style_opacity "1") n (dom s) !! m \/
      (searchResults s = Some m /\
       exists e, alter (set_style_opacity "1") n (dom s) !! m = Some e /\
                 d !! m = Some (set_dataset_spaInitialized (Some "true") e)).
Proof.
  unfold navigateTo_finish.
  destruct (initializeEventListeners_store (write_opacity n "1" s)) as (d & Hd & Hm).
  exists d. rewrite Hd. split; [reflexivity|]. exact Hm.
Qed.

(** *** The success path of a navigation *)

Lemma navigateTo_push_eq b url s n el newContent title :
  mainContent s = Some n ->
  dom s !! n = Some el ->
  serves b s url newContent title ->
  pushState_accepts b (pushed_state url title newContent (currentIndex s + 1)) url = true ->
  navigateTo b url true s =
    navigateTo_finish n url true
      (scrollTo 0 0
         (history_pushState
            (pushed_state url title newContent (currentIndex s + 1)) url
            (set_currentIndex (currentIndex s + 1)
               (swapped n url newContent title s)))).
Proof.
  intros Hn Hel (r & Hf & Hok & Hq & Ht) Hacc. unfold navigateTo.
  rewrite andb_false_r, Hn. fields. rewrite Hf, Hok. cbn [negb].
  rewrite Hq. unfold read_innerHTML. fields.
  rewrite !lookup_alter_eq, Hel.
  cbn [fmap option_fmap option_map set_innerHTML innerHTML].
  rewrite Ht. unfold pushed_state in Hacc. rewrite Hacc. reflexivity.
Qed.


(** A forward navigation that ran to the end of its [try] block pushed one
    slot, numbered one above the counter. *)
Lemma navigateTo_completed_inv b url s :
  (navigateTo b url true s).2 = Completed ->
  exists st,
    st_index st = currentIndex s + 1 /\
    history_entries (navigateTo b url true s).1 =
      take (S (history_position s)) (history_entries s)
        ++ [mkHistoryEntry (Some st) url] /\
    history_position (navigateTo b url true s).1 = S (history_position s) /\
    currentIndex (navigateTo b url true s).1 = currentIndex s + 1.
Proof.
  unfold navigateTo. rewrite andb_false_r.
  destruct (mainContent s) as [n|]; [|discriminate].
  fields.
  destruct (fetch b (length (requests s)) url) as [|r]; [discriminate|].
  destruct (ok r); [|discriminate]. cbn [negb].
  destruct (doc_querySelector _ _) as [newContent|]; [|discriminate].
  match goal with |- context [pushState_accepts b ?st url] =>
    destruct (pushState_accepts b st url); [intros _; exists st|discriminate] end.
  match goal with |- context [navigateTo_finish ?n ?u ?p ?x] =>
    destruct (navigateTo_finish_store n u p x) as (d & -> & _) end.
  fields. repeat apply conj; reflexivity.
Qed.

(** *** What the failure path leaves *)

(** C1.  A navigation that fails with [HttpError], [NetworkError] or
    [ContentNotFoundError] (the request is rejected, answered with a status
    outside 200-299, or answered with a document without the content
    element) runs the catch block and returns: the opacity of the content
    element is back at "1"; its markup, the title, the session history and
    the active slot, the location, the scroll offset and [currentIndex] are
    what they were; no event was dispatched. *)
Theorem navigateTo_failure_is_absorbed b url pushState s n el e :
  mainContent s = Some n ->
  dom s !! n = Some el ->
  (url = location_href s -> pushState = true) ->
  fails b s url e ->
  let s' := (navigateTo b url pushState s).1 in
  (navigateTo b url pushState s).2 = Caught e /\
  read_opacity n s' = "1" /\
  read_innerHTML n s' = read_innerHTML n s /\
  document_title s' = document_title s /\
  history_entries s' = history_entries s /\
  history_position s' = history_position s /\
  location_href s' = location_href s /\
  scrollX s' = scrollX s /\ scrollY s' = scrollY s /\
  currentIndex s' = currentIndex s /\
  dispatched s' = dispatched s.
Proof.
  intros Hn Hel Hg Hf s'. subst s'.
  rewrite (navigateTo_fails b url pushState s n e Hn Hg Hf).
  unfold read_opacity, read_innerHTML. fields.
  rewrite !lookup_alter_eq, Hel.
  repeat apply conj; reflexivity.
Qed.

Lemma navigateTo_failure_is_absorbed_witness :
  let b := Site.browser in
  let s := Site.started in
  let url := Site.broken_url in
  let s' := (navigateTo b url true s).1 in
  mainContent s = Some 1%nat /\
  fails b s url (HttpError 500) /\
  (navigateTo b url true s).2 = Caught (HttpError 500) /\
  read_opacity 1 s' = "1" /\
  read_innerHTML 1 s' = "Home" /\
  document_title s' = "Home" /\
  history_entries s' = history_entries s /\
  dispatched s' = [].
Proof.
  assert (Hn : mainContent Site.started = Some 1%nat) by reflexivity.
  assert (Hel : dom Site.started !! 1%nat = Some (mkElement "MAIN" "Home" "" None))
    by reflexivity.
  assert (Hf : fails Site.browser Site.started Site.broken_url (HttpError 500)).
  { apply (fails_http _ _ _ (mkResponse 500 "oops")); reflexivity. }
  pose proof (navigateTo_failure_is_absorbed Site.browser Site.broken_url true
                Site.started 1%nat _ _ Hn Hel (fun _ => eq_refl) Hf) as H.
  cbv zeta in H.
  destruct H as (Ho & Hop & Hin & Ht & Hh & _ & _ & _ & _ & _ & Hd).
  cbv zeta. repeat apply conj; try assumption.
Defined.

(** *** The guard of line 122 *)

(** C5.  [navigateTo(url, false)] with [url] equal to the current location
    returns at the guard: the state, with its content element, title,
    indicator, session history and the list of requests issued, is the one it
    was called in. *)
Theorem navigateTo_current_url_is_noop b url s :
  url = location_href s ->
  navigateTo b url false s = (s, Skipped).
Proof.
  intros ->. unfold navigateTo.
  rewrite bool_decide_eq_true_2 by reflexivity. reflexivity.
Qed.

Lemma navigateTo_current_url_is_noop_witness :
  Site.index_url = location_href Site.started /\
  navigateTo Site.browser Site.index_url false Site.started
    = (Site.started, Skipped).
Proof.
  split; [reflexivity|].
  apply (navigateTo_current_url_is_noop Site.browser Site.index_url Site.started).
  reflexivity.
Defined.

(** With [pushState] true the guard never returns. *)
Lemma navigateTo_push_not_skipped b url s :
  (navigateTo b url true s).2 <> Skipped.
Proof.
  unfold navigateTo. rewrite andb_false_r.
  destruct (mainContent s) as [n|]; [|discriminate].
  fields.
  destruct (fetch b (length (requests s)) url) as [|r]; [discriminate|].
  destruct (ok r); [|discriminate]. cbn [negb].
  destruct (doc_querySelector _ _) as [newContent|]; [|discriminate].
  match goal with |- context [pushState_accepts b ?st url] =>
    destruct (pushState_accepts b st url); [|discriminate] end.
  match goal with |- context [navigateTo_finish ?n ?u ?p ?x] =>
    destruct (navigateTo_finish_store n u p x) as (d & -> & _) end.
  discriminate.
Qed.

(** What a successful forward navigation leaves, field by field. *)
Lemma navigateTo_push_fields b url s n el newContent title :
  mainContent s = Some n ->
  dom s !! n = Some el ->
  serves b s url newContent title ->
  pushState_accepts b (pushed_state url title newContent (currentIndex s + 1)) url = true ->
  let s' := (navigateTo b url true s).1 in
  (navigateTo b url true s).2 = Completed /\
  requests s' = requests s ++ [url] /\
  history_entries s' =
    take (S (history_position s)) (history_entries s)
      ++ [mkHistoryEntry
            (Some (pushed_state url title newContent (currentIndex s + 1))) url] /\
  history_position s' = S (history_position s) /\
  currentIndex s' = currentIndex s + 1 /\
  location_href s' = url /\
  document_title s' = title /\
  scrollX s' = 0 /\ scrollY s' = 0 /\
  dispatched s' = dispatched s ++ [mkCustomEvent "spaContentUpdated" url true] /\
  read_innerHTML n s' = newContent /\
  read_opacity n s' = "1".
Proof.
  intros Hn Hel Hs Hacc s'. subst s'.
  rewrite (navigateTo_push_eq b url s n el newContent title Hn Hel Hs Hacc).
  match goal with |- context [navigateTo_finish ?n ?u ?p ?x] =>
    destruct (navigateTo_finish_store n u p x) as (d & -> & Hd) end.
  specialize (Hd n). unfold read_innerHTML, read_opacity. fields.
  rewrite !lookup_alter_eq, Hel in Hd.
  cbn [fmap option_fmap option_map] in Hd.
  assert (Hdn : exists e', d !! n = Some e' /\ innerHTML e' = newContent
                           /\ style_opacity e' = "1").
  { destruct Hd as [Hd | (_ & e & He & Hd)].
    - eexists. split; [exact Hd|]. split; reflexivity.
    - injection He as <-. eexists. split; [exact Hd|]. split; reflexivity. }
  destruct Hdn as (e' & -> & Hi & Ho).
  repeat apply conj; try reflexivity; assumption.
Qed.



(** C10.  [navigateTo(url, true)] with [url] equal to the current location
    is not stopped by the guard.  When the request is answered with a 2xx
    document that has the content element, and the history accepts the entry,
    the request is issued and one slot is pushed for the same location, its
    [index] one above the counter, which follows. *)
Theorem navigateTo_push_current_url b s n el newContent title :
  mainContent s = Some n ->
  dom s !! n = Some el ->
  serves b s (location_href s) newContent title ->
  pushState_accepts b
    (pushed_state (location_href s) title newContent (currentIndex s + 1))
    (location_href s) = true ->
  let url := location_href s in
  let s' := (navigateTo b url true s).1 in
  (navigateTo b url true s).2 = Completed /\
  requests s' = requests s ++ [url] /\
  history_entries s' =
    take (S (history_position s)) (history_entries s)
      ++ [mkHistoryEntry
            (Some (pushed_state url title newContent (currentIndex s + 1))) url] /\
  history_position s' = S (history_position s) /\
  currentIndex s' = currentIndex s + 1 /\
  location_href s' = url /\
  read_innerHTML n s' = newContent.
Proof.
  intros Hn Hel Hs Hacc url s'. subst url s'.
  destruct (navigateTo_push_fields b (location_href s) s n el newContent title
              Hn Hel Hs Hacc)
    as (H1 & H2 & H3 & H4 & H5 & H6 & _ & _ & _ & _ & H7 & _).
  repeat apply conj; assumption.
Qed.

Lemma navigateTo_push_current_url_witness :
  let b := Site.browser in
  let s := Site.started in
  let s' := (navigateTo b Site.index_url true s).1 in
  location_href s = Site.index_url /\
  serves b s (location_href s) "Home" "Home" /\
  (navigateTo b Site.index_url true s).2 = Completed /\
  requests s' = [Site.index_url] /\
  indices (history_entries s') = [Some 0; Some 1] /\
  history_position s' = 1%nat /\
  currentIndex s' = 1.
Proof.
  assert (Hn : mainContent Site.started = Some 1%nat) by reflexivity.
  assert (Hel : dom Site.started !! 1%nat = Some (mkElement "MAIN" "Home" "" None))
    by reflexivity.
  assert (Hs : serves Site.browser Site.started (location_href Site.started)
                 "Home" "Home").
  { exists (mkResponse 200 "index.html"). repeat split. }
  pose proof (navigateTo_push_current_url Site.browser Site.started 1%nat _
                "Home" "Home" Hn Hel Hs eq_refl) as H.
  cbv zeta in H. destruct H as (H1 & H2 & H3 & H4 & H5 & _).
  cbv zeta. split; [reflexivity|]. split; [exact Hs|]. split; [exact H1|].
  split; [exact H2|].
  split; [exact (f_equal indices H3)|].
  split; [exact H4|exact H5].
Defined.

(** *** Clicks *)

(** C7.  A clicked anchor is internal exactly when its host is the host of
    the current location; nothing else of the link is looked at.  A click on
    an internal anchor calls [preventDefault] and runs
    [navigateTo(link.href, true)]; a click on any other anchor leaves the
    state and the event's default action alone and sets the anchor's [target]
    to "_blank" and its [rel] to "noopener noreferrer". *)
Theorem handleClick_classifies_by_host b link prevented s :
  (isInternalLink link s = true <-> a_host link = location_host s) /\
  (a_host link = location_host s ->
   handleClick b (mkClickEvent (Some link) prevented) s =
     ((navigateTo b (a_href link) true s).1,
      mkClickEvent (Some link) true,
      (navigateTo b (a_href link) true s).2)) /\
  (a_host link <> location_host s ->
   handleClick b (mkClickEvent (Some link) prevented) s =
     (s,
      mkClickEvent
        (Some (mkAnchor (a_host link) (a_href link) "_blank" "noopener noreferrer"))
        prevented,
      Ignored)).
Proof.
  split; [|split].
  - unfold isInternalLink. apply bool_decide_eq_true.
  - intros Hh. unfold handleClick, isInternalLink. cbn [closest_a].
    rewrite bool_decide_eq_true_2 by assumption.
    destruct (navigateTo b (a_href link) true s). reflexivity.
  - intros Hh. unfold handleClick, isInternalLink. cbn [closest_a].
    rewrite bool_decide_eq_false_2 by assumption. reflexivity.
Qed.

Lemma handleClick_classifies_by_host_witness :
  let b := Site.browser in
  let s := Site.started in
  let inner := Site.link_to "example.org" Site.about_url in
  let outer := Site.link_to "elsewhere.example" "https://elsewhere.example/" in
  (handleClick b (mkClickEvent (Some inner) false) s).1.2
    = mkClickEvent (Some inner) true /\
  location_href (handleClick b (mkClickEvent (Some inner) false) s).1.1
    = Site.about_url /\
  handleClick b (mkClickEvent (Some outer) false) s
    = (s,
       mkClickEvent
         (Some (mkAnchor "elsewhere.example" "https://elsewhere.example/"
                  "_blank" "noopener noreferrer")) false,
       Ignored).
Proof.
  cbv zeta.
  destruct (handleClick_classifies_by_host Site.browser
              (Site.link_to "example.org" Site.about_url) false Site.started)
    as (_ & Hin & _).
  destruct (handleClick_classifies_by_host Site.browser
              (Site.link_to "elsewhere.example" "https://elsewhere.example/")
              false Site.started)
    as (_ & _ & Hout).
  rewrite (Hin eq_refl). split; [reflexivity|]. split; [reflexivity|].
  apply Hout. discriminate.
Defined.

(** *** Initialisation *)

(** C8.  When the main-content selector matches nothing, the constructor
    returns without an error and without effect outside the instance: no
    listener is attached, the session history, the location, the document and
    the traces are untouched, and [this.mainContent] is null.  On a page that
    had no listener of the class before, clicks and [popstate] events then
    never reach the instance. *)
Theorem constructor_without_main_is_inert b options s :
  querySelector b (mainContentSelector (merge_config options)) = None ->
  let s' := constructor b options s in
  mainContent s' = None /\
  popstate_listener s' = popstate_listener s /\
  click_listener s' = click_listener s /\
  history_entries s' = history_entries s /\
  history_position s' = history_position s /\
  location_href s' = location_href s /\
  document_title s' = document_title s /\
  dom s' = dom s /\
  dispatched s' = dispatched s /\
  requests s' = requests s /\
  currentIndex s' = currentIndex s /\
  (popstate_listener s = false -> click_listener s = false ->
   forall e state,
     dispatch_click b e s' = (s', e, NotHandled) /\
     dispatch_popstate b state s' = (s', NotHandled)).
Proof.
  intros Hq s'. subst s'. unfold constructor, init. fields. rewrite Hq.
  fields. repeat apply conj; try reflexivity.
  intros Hp Hc e state. unfold dispatch_click, dispatch_popstate. fields.
  rewrite Hp, Hc. split; reflexivity.
Qed.

Lemma constructor_without_main_is_inert_witness :
  let b := Site.browser_without_main in
  let s' := constructor b Site.no_options Site.loaded in
  querySelector b (mainContentSelector (merge_config Site.no_options)) = None /\
  mainContent s' = None /\
  popstate_listener s' = false /\
  click_listener s' = false /\
  history_entries s' = [mkHistoryEntry None Site.index_url] /\
  dispatch_click b
    (mkClickEvent (Some (Site.link_to "example.org" Site.about_url)) false) s'
    = (s', mkClickEvent (Some (Site.link_to "example.org" Site.about_url)) false,
       NotHandled) /\
  dispatch_popstate b None s' = (s', NotHandled).
Proof.
  pose proof (constructor_without_main_is_inert Site.browser_without_main
                Site.no_options Site.loaded eq_refl) as H.
  cbv zeta in H.
  destruct H as (H1 & H2 & H3 & H4 & _ & _ & _ & _ & _ & _ & _ & H5).
  destruct (H5 eq_refl eq_refl
              (mkClickEvent (Some (Site.link_to "example.org" Site.about_url)) false)
              None) as (H6 & H7).
  cbv zeta. repeat apply conj; assumption.
Defined.

(** *** The counter *)

(** A navigation that does not push never writes [currentIndex]. *)
Lemma navigateTo_replace_index b url s :
  currentIndex (navigateTo b url false s).1 = currentIndex s.
Proof.
  unfold navigateTo.
  destruct (bool_decide (url = location_href s) && negb false); [reflexivity|].
  destruct (mainContent s) as [n|]; [|reflexivity].
  fields.
  destruct (fetch b (length (requests s)) url) as [|r]; [reflexivity|].
  destruct (ok r); [|reflexivity]. cbn [negb].
  destruct (doc_querySelector _ _) as [newContent|]; [|reflexivity].
  match goal with |- context [navigateTo_finish ?n ?u ?p ?x] =>
    destruct (navigateTo_finish_store n u p x) as (d & -> & _) end.
  reflexivity.
Qed.

(** [handlePopState] with a state object leaves the counter at the object's
    [index], whichever branch it takes. *)
Lemma handlePopState_index b st s :
  currentIndex (handlePopState b (Some st) s).1 = st_index st.
Proof.
  unfold handlePopState.
  destruct (st_content st) as [content|].
  - destruct (truthy (Some content)).
    + fields. destruct (mainContent s) as [n|]; [|reflexivity].
      destruct (st_scrollPosition st) as [[x y]|]; reflexivity.
    + apply navigateTo_replace_index.
  - apply navigateTo_replace_index.
Qed.

(** [handlePopState] without a state object stops at the guard of
    [navigateTo]: the URL it passes is the current location. *)
Lemma handlePopState_null b s :
  handlePopState b None s = (s, Skipped).
Proof.
  unfold handlePopState, navigateTo.
  rewrite bool_decide_eq_true_2 by reflexivity. reflexivity.
Qed.

Lemma is_completed_true o : is_completed o = true -> o = Completed.
Proof. destruct o; try discriminate. reflexivity. Qed.

(** Forward navigations that all complete push slots numbered upwards from
    the counter, right after the slot that was active. *)
Lemma forward_indices b urls :
  forall s,
    all_completed b urls s = true ->
    (history_position s < length (history_entries s))%nat ->
    exists pushed,
      take (S (history_position s) + length urls)
           (history_entries (forward b urls s)) =
        take (S (history_position s)) (history_entries s) ++ pushed /\
      indices pushed =
        (fun i => Some (currentIndex s + Z.of_nat i)) <$> seq 1 (length urls) /\
      history_position (forward b urls s) =
        (history_position s + length urls)%nat /\
      currentIndex (forward b urls s) = currentIndex s + Z.of_nat (length urls).
Proof.
  induction urls as [|url urls IH]; intros s Hall Hpos.
  - exists []. cbn [forward foldl length seq fmap list_fmap indices].
    rewrite app_nil_r, !Nat.add_0_r, Z.add_0_r.
    repeat apply conj; reflexivity.
  - cbn [all_completed] in Hall. apply andb_true_iff in Hall as [Hc Hall].
    apply is_completed_true in Hc.
    destruct (navigateTo_completed_inv b url s Hc) as (st & Hst & He & Hp & Hi).
    assert (Hlen : length (history_entries (navigateTo b url true s).1)
                   = S (S (history_position s))).
    { rewrite He, length_app, length_take. cbn [length]. lia. }
    destruct (IH (navigateTo b url true s).1 Hall) as (pushed & He' & Hx & Hp' & Hi').
    { rewrite Hp, Hlen. lia. }
    exists (mkHistoryEntry (Some st) url :: pushed).
    change (forward b (url :: urls) s)
      with (forward b urls (navigateTo b url true s).1).
    rewrite Hp', Hi', Hp, Hi. rewrite Hp in He'.
    rewrite (take_ge (history_entries (navigateTo b url true s).1)) in He'
      by (rewrite Hlen; lia).
    rewrite He, <- app_assoc in He'.
    cbn [length].
    replace (S (history_position s) + S (length urls))%nat
      with (S (S (history_position s)) + length urls)%nat by lia.
    repeat apply conj.
    + exact He'.
    + unfold indices in *. rewrite fmap_cons. cbn [h_state fmap option_fmap option_map seq].
      rewrite Hst. rewrite fmap_cons. f_equal.
      rewrite Hx, Hi. rewrite <- (fmap_S_seq 1), <- list_fmap_compose.
      apply list_fmap_ext. intros _ i _. cbn [compose]. f_equal. lia.
    + lia.
    + lia.
Qed.

(** What the constructor leaves when the selector matches element [n]. *)
Lemma constructor_started b options s n :
  querySelector b (mainContentSelector (merge_config options)) = Some n ->
  let s' := constructor b options s in
  mainContent s' = Some n /\
  currentIndex s' = 0 /\
  popstate_listener s' = true /\
  click_listener s' = true /\
  dom s' = dom s /\
  location_href s' = location_href s /\
  history_position s' = history_position s /\
  history_entries s' =
    <[history_position s :=
        mkHistoryEntry
          (Some {| st_url := location_href s; st_title := document_title s;
                   st_content := Some (read_innerHTML n s);
                   st_scrollPosition := Some (scrollX s, scrollY s);
                   st_isInitialState := true; st_index := 0 |})
          (location_href s)]> (history_entries s).
Proof.
  intros Hq s'. subst s'. unfold constructor, init. fields. rewrite Hq.
  fields. repeat apply conj; reflexivity.
Qed.

Lemma constructor_mainContent b options s :
  mainContent (constructor b options s)
    = querySelector b (mainContentSelector (merge_config options)).
Proof.
  unfold constructor, init. fields.
  destruct (querySelector b (mainContentSelector (merge_config options)));
    reflexivity.
Qed.

(** C6.  A slot pushed by a forward navigation carries [index] equal to the
    counter plus one, and the counter follows it.  [handlePopState] never
    adds to the counter: with a state object it sets the counter to the
    object's [index], without one it leaves the counter alone; so does a
    traversal of the session history.  Hence [N] forward navigations that all
    complete, started from the state the constructor leaves, push [N] slots
    numbered 1, ..., N, the last of them the active one. *)
Theorem ordinal_bookkeeping b :
  (forall url s,
     (navigateTo b url true s).2 = Completed ->
     exists st,
       history_entries (navigateTo b url true s).1 =
         take (S (history_position s)) (history_entries s)
           ++ [mkHistoryEntry (Some st) url] /\
       st_index st = currentIndex s + 1 /\
       currentIndex (navigateTo b url true s).1 = currentIndex s + 1) /\
  (forall st s, currentIndex (handlePopState b (Some st) s).1 = st_index st) /\
  (forall s, currentIndex (handlePopState b None s).1 = currentIndex s) /\
  (forall k h s,
     popstate_listener s = true ->
     history_entries s !! k = Some h ->
     currentIndex (traverse b k s).1 =
       match h_state h with
       | Some st => st_index st
       | None => currentIndex s
       end) /\
  (forall options s0 urls,
     let s := constructor b options s0 in
     mainContent s <> None ->
     (history_position s0 < length (history_entries s0))%nat ->
     all_completed b urls s = true ->
     exists pushed,
       take (S (history_position s0) + length urls)
            (history_entries (forward b urls s)) =
         take (S (history_position s0)) (history_entries s) ++ pushed /\
       indices pushed = Some <$> (Z.of_nat <$> seq 1 (length urls)) /\
       history_position (forward b urls s) =
         (history_position s0 + length urls)%nat).
Proof.
  repeat apply conj.
  - intros url s Hc.
    destruct (navigateTo_completed_inv b url s Hc) as (st & Hst & He & _ & Hi).
    exists st. repeat apply conj; assumption.
  - apply handlePopState_index.
  - intros s. rewrite handlePopState_null. reflexivity.
  - intros k h s Hl Hk. unfold traverse, dispatch_popstate. rewrite Hk. fields.
    rewrite Hl. destruct (h_state h) as [st|].
    + apply handlePopState_index.
    + rewrite handlePopState_null. reflexivity.
  - intros options s0 urls s Hm Hpos Hall. subst s.
    rewrite constructor_mainContent in Hm.
    destruct (querySelector b (mainContentSelector (merge_config options)))
      as [n|] eqn:Hq; [|contradiction].
    destruct (constructor_started b options s0 n Hq)
      as (_ & Hi & _ & _ & _ & _ & Hp & He).
    destruct (forward_indices b urls (constructor b options s0) Hall)
      as (pushed & Ht & Hx & Hp' & _).
    { rewrite Hp, He, length_insert. exact Hpos. }
    exists pushed. rewrite Hp in Ht, Hp'. rewrite Hi in Hx.
    repeat apply conj; [exact Ht| |exact Hp'].
    rewrite Hx, <- list_fmap_compose.
    apply list_fmap_ext. intros _ i _. cbn [compose]. f_equal.
Qed.

Lemma ordinal_bookkeeping_witness :
  let b := Site.browser in
  let s := constructor b Site.no_options Site.loaded in
  let urls := [Site.about_url; Site.contact_url] in
  all_completed b urls s = true /\
  indices (history_entries (forward b urls s)) = [Some 0; Some 1; Some 2] /\
  history_position (forward b urls s) = 2%nat /\
  currentIndex (traverse b 1 (forward b urls s)).1 = 1.
Proof.
  destruct (ordinal_bookkeeping Site.browser) as (_ & _ & _ & Htr & Hfw).
  assert (Hm : mainContent (constructor Site.browser Site.no_options Site.loaded)
               <> None) by discriminate.
  assert (Hpos : (history_position Site.loaded
                  < length (history_entries Site.loaded))%nat)
    by (cbn [Site.loaded history_position history_entries length]; lia).
  destruct (Hfw Site.no_options Site.loaded [Site.about_url; Site.contact_url]
              Hm Hpos eq_refl) as (pushed & Ht & Hx & Hp).
  cbv zeta. split; [reflexivity|]. split; [reflexivity|].
  split; [exact Hp|].
  exact (Htr 1%nat
           (mkHistoryEntry
              (Some (pushed_state Site.about_url "About" "About" 1))
              Site.about_url)
           (forward Site.browser [Site.about_url; Site.contact_url]
              (constructor Site.browser Site.no_options Site.loaded))
           eq_refl eq_refl).
Defined.

(** *** The content element is never replaced *)

Lemma store_kept_refl main search d : store_kept main search d d.
Proof.
  intros m. destruct (d !! m); [|exact I]. split; [reflexivity|].
  intros _ _. reflexivity.
Qed.

Lemma store_kept_trans main search d1 d2 d3 :
  store_kept main search d1 d2 ->
  store_kept main search d2 d3 ->
  store_kept main search d1 d3.
Proof.
  intros H12 H23 m. specialize (H12 m). specialize (H23 m).
  destruct (d1 !! m) as [e1|], (d2 !! m) as [e2|], (d3 !! m) as [e3|];
    try contradiction; try exact I.
  destruct H12 as [Ht12 He12], H23 as [Ht23 He23]. split.
  - rewrite Ht23. exact Ht12.
  - intros Hm Hs. rewrite (He23 Hm Hs). apply He12; assumption.
Qed.

(** An update in place of the content element that keeps its tag. *)
Lemma store_kept_alter search n f d :
  (forall e, tagName (f e) = tagName e) ->
  store_kept (Some n) search d (alter f n d).
Proof.
  intros Hf m. destruct (decide (n = m)) as [<-|Hne].
  - rewrite lookup_alter_eq. destruct (d !! n) as [e|]; [|exact I].
    cbn [fmap option_fmap option_map]. split; [apply Hf|].
    intros Hm. contradiction Hm. reflexivity.
  - rewrite lookup_alter_ne by assumption.
    destruct (d !! m); [|exact I]. split; [reflexivity|]. intros _ _. reflexivity.
Qed.

Lemma kept_refl s : kept s s.
Proof.
  split; [reflexivity|]. split; [reflexivity|]. apply store_kept_refl.
Qed.

Lemma kept_trans s1 s2 s3 : kept s1 s2 -> kept s2 s3 -> kept s1 s3.
Proof.
  intros (Hm12 & Hs12 & Hd12) (Hm23 & Hs23 & Hd23).
  split; [congruence|]. split; [congruence|].
  rewrite Hm12, Hs12 in Hd23. eapply store_kept_trans; eassumption.
Qed.

(** An update that touches neither the store nor the two references. *)
Lemma kept_same s s' :
  mainContent s' = mainContent s ->
  searchResults s' = searchResults s ->
  dom s' = dom s ->
  kept s s'.
Proof.
  intros Hm Hs Hd. split; [assumption|]. split; [assumption|].
  rewrite Hd. apply store_kept_refl.
Qed.

Lemma kept_write_opacity n v s :
  mainContent s = Some n -> kept s (write_opacity n v s).
Proof.
  intros Hn. split; [reflexivity|]. split; [reflexivity|].
  fields. rewrite Hn. apply store_kept_alter. reflexivity.
Qed.

Lemma kept_write_innerHTML n v s :
  mainContent s = Some n -> kept s (write_innerHTML n v s).
Proof.
  intros Hn. split; [reflexivity|]. split; [reflexivity|].
  fields. rewrite Hn. apply store_kept_alter. reflexivity.
Qed.

Lemma kept_initializeEventListeners s : kept s (initializeEventListeners s).
Proof.
  destruct (initializeEventListeners_store s) as (d & -> & Hd).
  split; [reflexivity|]. split; [reflexivity|]. fields.
  intros m. destruct (Hd m) as [-> | (Hs & e & He & ->)].
  - destruct (dom s !! m); [|exact I]. split; [reflexivity|]. intros _ _. reflexivity.
  - rewrite He. split; [reflexivity|]. intros _ Hne. contradiction.
Qed.

Lemma kept_navigateTo_finish n url pushState s :
  mainContent s = Some n -> kept s (navigateTo_finish n url pushState s).1.
Proof.
  intros Hn. unfold navigateTo_finish. cbn [fst].
  eapply kept_trans; [apply (kept_write_opacity n "1" s Hn)|].
  eapply kept_trans; [apply kept_initializeEventListeners|].
  apply kept_same; reflexivity.
Qed.

Lemma kept_swapped n url newContent title s :
  mainContent s = Some n -> kept s (swapped n url newContent title s).
Proof.
  intros Hn. unfold swapped.
  eapply kept_trans; [apply (kept_write_opacity n "0.5" s Hn)|].
  eapply kept_trans; [apply kept_same with
    (s' := set_requests (requests s ++ [url]) (write_opacity n "0.5" s));
    reflexivity|].
  eapply kept_trans; [apply (kept_write_innerHTML n newContent); exact Hn|].
  apply kept_same; reflexivity.
Qed.

Lemma kept_navigateTo b url pushState s : kept s (navigateTo b url pushState s).1.
Proof.
  unfold navigateTo.
  destruct (bool_decide (url = location_href s) && negb pushState);
    [apply kept_refl|].
  destruct (mainContent s) as [n|] eqn:Hn; [|apply kept_refl].
  fields.
  assert (Hcatch : forall e,
    kept s (navigateTo_catch n e
              (set_requests (requests s ++ [url]) (write_opacity n "0.5" s))).1).
  { intros e. cbn [navigateTo_catch fst].
    eapply kept_trans; [apply (kept_write_opacity n "0.5" s Hn)|].
    eapply kept_trans; [apply kept_same with
      (s' := set_requests (requests s ++ [url]) (write_opacity n "0.5" s));
      reflexivity|].
    apply kept_write_opacity. exact Hn. }
  destruct (fetch b (length (requests s)) url) as [|r]; [apply Hcatch|].
  destruct (ok r); [|apply Hcatch]. cbn [negb].
  destruct (doc_querySelector _ _) as [newContent|]; [|apply Hcatch].
  pose proof (kept_swapped n url newContent
                (doc_title (parseFromString b (text r))) s Hn) as Hsw.
  unfold swapped in Hsw.
  destruct pushState.
  - match goal with |- context [pushState_accepts b ?st url] =>
      destruct (pushState_accepts b st url) end.
    + eapply kept_trans; [exact Hsw|].
      eapply kept_trans; [|apply kept_navigateTo_finish; exact Hn].
      apply kept_same; reflexivity.
    + cbn [navigateTo_catch fst].
      eapply kept_trans; [exact Hsw|].
      eapply kept_trans; [|apply kept_write_opacity; exact Hn].
      apply kept_same; reflexivity.
  - eapply kept_trans; [exact Hsw|].
    apply kept_navigateTo_finish. exact Hn.
Qed.

Lemma kept_handlePopState b state s : kept s (handlePopState b state s).1.
Proof.
  unfold handlePopState. destruct state as [st|]; [|apply kept_navigateTo].
  assert (Hfall : forall url,
    kept s (navigateTo b url false (set_currentIndex (st_index st) s)).1).
  { intros url. eapply kept_trans; [|apply kept_navigateTo].
    apply kept_same; reflexivity. }
  destruct (st_content st) as [content|]; [|apply Hfall].
  destruct (truthy (Some content)); [|apply Hfall].
  fields. destruct (mainContent s) as [n|] eqn:Hn.
  2:{ apply kept_same; reflexivity. }
  assert (Hk : kept s
    (write_opacity n "1"
       (set_document_title (st_title st)
          (write_innerHTML n content (set_currentIndex (st_index st) s))))).
  { eapply kept_trans; [apply kept_same with
      (s' := set_currentIndex (st_index st) s); reflexivity|].
    eapply kept_trans; [apply (kept_write_innerHTML n content); exact Hn|].
    eapply kept_trans; [|apply kept_write_opacity; exact Hn].
    apply kept_same; reflexivity. }
  destruct (st_scrollPosition st) as [[x y]|]; cbn [fst].
  - eapply kept_trans; [exact Hk|]. apply kept_same; reflexivity.
  - exact Hk.
Qed.

Lemma kept_handleClick b e s : kept s (handleClick b e s).1.1.
Proof.
  unfold handleClick. destruct (closest_a e) as [link|]; [|apply kept_refl].
  destruct (isInternalLink link s); [|apply kept_refl].
  pose proof (kept_navigateTo b (a_href link) true s) as Hk.
  destruct (navigateTo b (a_href link) true s). exact Hk.
Qed.

Lemma kept_step b a s : kept s (step b a s).
Proof.
  destruct a as [e|k|state|url pushState|x y]; cbn [step].
  - unfold dispatch_click. destruct (click_listener s);
      [apply kept_handleClick|apply kept_refl].
  - unfold traverse. destruct (history_entries s !! k) as [h|]; [|apply kept_refl].
    unfold dispatch_popstate. fields.
    destruct (popstate_listener s).
    + eapply kept_trans; [|apply kept_handlePopState]. apply kept_same; reflexivity.
    + apply kept_same; reflexivity.
  - unfold dispatch_popstate. destruct (popstate_listener s);
      [apply kept_handlePopState|apply kept_refl].
  - apply kept_navigateTo.
  - apply kept_same; reflexivity.
Qed.

Lemma kept_run b acts : forall s, kept s (run b acts s).
Proof.
  induction acts as [|a acts IH]; intros s.
  - apply kept_refl.
  - change (run b (a :: acts) s) with (run b acts (step b a s)).
    eapply kept_trans; [apply kept_step|apply IH].
Qed.

(** C9.  [this.mainContent] is assigned once, by [init], to the element the
    selector finds; [init] builds no element.  After any sequence of clicks,
    history traversals, [popstate] events, direct calls of [navigateTo] and
    scrolling, the field still holds the same address, every element of the
    document is still at its address with its tag, and an element other than
    the content element and the search-results element is unchanged: the
    class writes the content element's markup and opacity in place. *)
Theorem mainContent_is_never_replaced b options s0 acts :
  let s := constructor b options s0 in
  let s' := run b acts s in
  mainContent s = querySelector b (mainContentSelector (merge_config options)) /\
  dom s = dom s0 /\
  mainContent s' = mainContent s /\
  forall m,
    match dom s !! m, dom s' !! m with
    | Some e, Some e' =>
        tagName e' = tagName e /\
        (mainContent s <> Some m -> searchResults s <> Some m -> e' = e)
    | None, None => True
    | _, _ => False
    end.
Proof.
  intros s s'. subst s s'.
  split; [apply constructor_mainContent|].
  split.
  { unfold constructor, init. fields.
    destruct (querySelector b (mainContentSelector (merge_config options)));
      reflexivity. }
  destruct (kept_run b acts (constructor b options s0)) as (Hm & _ & Hd).
  split; [exact Hm|exact Hd].
Qed.

(** *** Replaying a slot *)



(** C4 (the code departs from the claim).  [handlePopState] without a state
    object calls [navigateTo(window.location.href, false)], and that call
    always returns at the guard of line 122, since its URL is the current
    location: nothing is fetched and nothing changes. *)
Theorem popstate_without_state_is_dropped b s :
  handlePopState b None s = (s, Skipped) /\
  requests (handlePopState b None s).1 = requests s /\
  dom (handlePopState b None s).1 = dom s.
Proof.
  rewrite handlePopState_null. repeat apply conj; reflexivity.
Qed.

(** The same on the site: the browser has moved to a slot for [/about] that
    carries no state while "Home" is displayed; the server would answer
    "About", and the page still shows "Home" with no request issued. *)
Example popstate_without_state_on_site :
  let s := set_location_href Site.about_url Site.started in
  let s' := (dispatch_popstate Site.browser None s).1 in
  serves Site.browser s Site.about_url "About" "About" /\
  (dispatch_popstate Site.browser None s).2 = Skipped /\
  read_innerHTML 1 s' = "Home" /\
  requests s' = [].
Proof.
  cbv zeta. split.
  - exists (mkResponse 200 "about.html"). repeat split.
  - repeat apply conj; reflexivity.
Qed.

(** C3 (the code departs from the claim).  On the site, after [/index] and a
    forward navigation to [/about], the back button replays "Home" from the
    slot: the content is swapped, and no event is dispatched for it; the only
    event is the one of the forward navigation. *)
Theorem replay_dispatches_no_event :
  let s1 := (navigateTo Site.browser Site.about_url true Site.started).1 in
  let s2 := (history_back Site.browser s1).1 in
  (history_back Site.browser s1).2 = Restored /\
  read_innerHTML 1 s1 = "About" /\
  read_innerHTML 1 s2 = "Home" /\
  dispatched s1 = [mkCustomEvent "spaContentUpdated" Site.about_url true] /\
  dispatched s2 = dispatched s1.
Proof. vm_compute. repeat apply conj; reflexivity. Qed.

(** C2 (the code departs from the claim).  On the site the user scrolls
    [/index] down to 250, follows a link to [/about] and presses back.  The
    markup and the title of [/index] come back from the slot with no request
    issued, and the viewport is at the offset stored when the slot was
    written, (0, 0), not at the offset the page was left at. *)
Theorem roundtrip_loses_scroll_offset :
  let a := user_scroll 0 250 Site.started in
  let b1 := (navigateTo Site.browser Site.about_url true a).1 in
  let a' := (history_back Site.browser b1).1 in
  (scrollX a, scrollY a) = (0, 250) /\
  (scrollX a', scrollY a') = (0, 0) /\
  read_innerHTML 1 a' = read_innerHTML 1 a /\
  document_title a' = document_title a /\
  location_href a' = location_href a /\
  requests a' = requests b1.
Proof. vm_compute. repeat apply conj; reflexivity. Qed.

(** A page whose content element is empty does not come back either: the
    empty string is falsy at line 190, the handler falls through to
    [navigateTo(state.url, false)], and that call returns at the guard. *)
Example roundtrip_with_empty_content :
  let page := set_dom {[ 1%nat := mkElement "MAIN" "" "" None ]} Site.loaded in
  let a := constructor Site.browser Site.no_options page in
  let b1 := (navigateTo Site.browser Site.about_url true a).1 in
  let a' := (history_back Site.browser b1).1 in
  read_innerHTML 1 a = "" /\
  (history_back Site.browser b1).2 = Skipped /\
  location_href a' = Site.index_url /\
  read_innerHTML 1 a' = "About" /\
  document_title a' = "About".
Proof. vm_compute. repeat apply conj; reflexivity. Qed.

(** The scenario of a first visit: from [/index], a click on a link to
    [/about]. *)
Example click_to_about :
  let e := mkClickEvent (Some (Site.link_to "example.org" Site.about_url)) false in
  let r := dispatch_click Site.browser e Site.started in
  r.2 = Completed /\
  defaultPrevented r.1.2 = true /\
  read_innerHTML 1 r.1.1 = "About" /\
  document_title r.1.1 = "About" /\
  indices (history_entries r.1.1) = [Some 0; Some 1] /\
  (scrollX r.1.1, scrollY r.1.1) = (0, 0) /\
  dispatched r.1.1 = [mkCustomEvent "spaContentUpdated" Site.about_url true].
Proof. vm_compute. repeat apply conj; reflexivity. Qed.

(** ** More of the class *)

(** Lines 207-216.  With a null [this.mainContent] the property access
    throws. *)
Definition getInitialState (s : State) : Exn + HistoryState :=
  match mainContent s with
  | None => inl TypeError
  | Some n =>
      inr {| st_url := location_href s; st_title := document_title s;
             st_content := Some (read_innerHTML n s);
             st_scrollPosition := Some (scrollX s, scrollY s);
             st_isInitialState := true;
             st_index := 0 |}
  end.

(** The object built at lines 149-155 when the navigation started in [s]
    and the fetched document gave [newContent] and [title]. *)
Definition state_for_push (n : NodeId) (url newContent title : string) (s : State)
    : HistoryState :=
  {| st_url := url; st_title := title;
     st_content :=
       Some (read_innerHTML n
               (set_currentIndex (currentIndex s + 1)
                  (swapped n url newContent title s)));
     st_scrollPosition := Some (0, 0);
     st_isInitialState := false;
     st_index := currentIndex s + 1 |}.

(** The state the catch block leaves after a failure before the swap. *)
Definition after_failure (n : NodeId) (url : string) (s : State) : State :=
  write_opacity n "1"
    (set_requests (requests s ++ [url]) (write_opacity n "0.5" s)).

(** The ways through [navigateTo], each with the state it returns. *)
Inductive navigateTo_path (b : Browser) (url : string) (pushState : bool)
    (s : State) : State * Outcome -> Prop :=
| path_guard :
    url = location_href s -> pushState = false ->
    navigateTo_path b url pushState s (s, Skipped)
| path_null :
    (url = location_href s -> pushState = true) ->
    mainContent s = None ->
    navigateTo_path b url pushState s (s, Uncaught TypeError)
| path_failure n e :
    (url = location_href s -> pushState = true) ->
    mainContent s = Some n ->
    fails b s url e ->
    navigateTo_path b url pushState s (after_failure n url s, Caught e)
| path_replace n newContent title :
    url <> location_href s -> pushState = false ->
    mainContent s = Some n ->
    serves b s url newContent title ->
    navigateTo_path b url pushState s
      (navigateTo_finish n url false (swapped n url newContent title s))
| path_push n newContent title :
    pushState = true ->
    mainContent s = Some n ->
    serves b s url newContent title ->
    pushState_accepts b (state_for_push n url newContent title s) url = true ->
    navigateTo_path b url pushState s
      (navigateTo_finish n url true
         (scrollTo 0 0
            (history_pushState (state_for_push n url newContent title s) url
               (set_currentIndex (currentIndex s + 1)
                  (swapped n url newContent title s)))))
| path_refused n newContent title :
    pushState = true ->
    mainContent s = Some n ->
    serves b s url newContent title ->
    pushState_accepts b (state_for_push n url newContent title s) url = false ->
    navigateTo_path b url pushState s
      (navigateTo_catch n HistoryError
         (set_currentIndex (currentIndex s + 1)
            (swapped n url newContent title s))).


(** Every call of [navigateTo] takes one of the paths. *)
Lemma navigateTo_paths b url pushState s :
  navigateTo_path b url pushState s (navigateTo b url pushState s).
Proof.
  unfold navigateTo.
  destruct (bool_decide (url = location_href s)) eqn:Hu.
  - apply bool_decide_eq_true in Hu. destruct pushState; cbn [andb negb].
    2:{ apply path_guard; [assumption|reflexivity]. }
    destruct (mainContent s) as [n|] eqn:Hn.
    2:{ apply path_null; [reflexivity|assumption]. }
    fields.
    destruct (fetch b (length (requests s)) url) as [|r] eqn:Hf.
    { apply path_failure; [reflexivity|assumption|]. apply fails_network. exact Hf. }
    destruct (ok r) eqn:Hok; cbn [negb].
    2:{ apply path_failure; [reflexivity|assumption|].
        apply (fails_http b s url r Hf Hok). }
    destruct (doc_querySelector _ _) as [newContent|] eqn:Hq.
    2:{ apply path_failure; [reflexivity|assumption|].
        apply (fails_content b s url r Hf Hok Hq). }
    assert (Hs : serves b s url newContent (doc_title (parseFromString b (text r)))).
    { exists r. repeat apply conj; try assumption. reflexivity. }
    match goal with |- context [pushState_accepts b ?st url] =>
      change st with (state_for_push n url newContent
                        (doc_title (parseFromString b (text r))) s);
      destruct (pushState_accepts b
                  (state_for_push n url newContent
                     (doc_title (parseFromString b (text r))) s) url) eqn:Hacc
    end.
    + apply (path_push b url true s n newContent _ eq_refl Hn Hs Hacc).
    + apply (path_refused b url true s n newContent _ eq_refl Hn Hs Hacc).
  - apply bool_decide_eq_false in Hu. cbn [andb].
    assert (Hg : url = location_href s -> pushState = true) by (intros; contradiction).
    destruct (mainContent s) as [n|] eqn:Hn.
    2:{ apply path_null; assumption. }
    fields.
    destruct (fetch b (length (requests s)) url) as [|r] eqn:Hf.
    { apply path_failure; [assumption|assumption|]. apply fails_network. exact Hf. }
    destruct (ok r) eqn:Hok; cbn [negb].
    2:{ apply path_failure; [assumption|assumption|].
        apply (fails_http b s url r Hf Hok). }
    destruct (doc_querySelector _ _) as [newContent|] eqn:Hq.
    2:{ apply path_failure; [assumption|assumption|].
        apply (fails_content b s url r Hf Hok Hq). }
    assert (Hs : serves b s url newContent (doc_title (parseFromString b (text r)))).
    { exists r. repeat apply conj; try assumption. reflexivity. }
    destruct pushState.
    + match goal with |- context [pushState_accepts b ?st url] =>
        change st with (state_for_push n url newContent
                          (doc_title (parseFromString b (text r))) s);
        destruct (pushState_accepts b
                    (state_for_push n url newContent
                       (doc_title (parseFromString b (text r))) s) url) eqn:Hacc
      end.
      * apply (path_push b url true s n newContent _ eq_refl Hn Hs Hacc).
      * apply (path_refused b url true s n newContent _ eq_refl Hn Hs Hacc).
    + apply (path_replace b url false s n newContent _ Hu eq_refl Hn Hs).
Qed.

(** Case analysis on the path a call of [navigateTo] took. *)
Ltac by_path b url p s :=
  generalize (navigateTo_paths b url p s);
  generalize (navigateTo b url p s);
  let r := fresh "r" in
  let H := fresh "Hpath" in
  intros r H; destruct H;
  try match goal with |- context [navigateTo_finish ?n ?u ?q ?x] =>
    let d := fresh "d" in
    let Hd := fresh "Hd" in
    destruct (navigateTo_finish_store n u q x) as (d & -> & Hd) end;
  unfold after_failure.

(** *** What [navigateTo] does on every path *)

(** One [spaContentUpdated] event, carrying the URL and the flag, is
    dispatched by a call that runs to the end of its [try] block, and none by
    any other call. *)
Theorem navigateTo_dispatches_iff_completed b url pushState s :
  dispatched (navigateTo b url pushState s).1 =
    if is_completed (navigateTo b url pushState s).2
    then dispatched s ++ [mkCustomEvent "spaContentUpdated" url pushState]
    else dispatched s.
Proof.
  by_path b url pushState s; subst; fields; reflexivity.
Qed.

(** A call issues at most one request, for the URL it was given: none when
    the guard returns or [this.mainContent] is null, one on every other
    path. *)
Theorem navigateTo_requests b url pushState s :
  requests (navigateTo b url pushState s).1 =
    match (navigateTo b url pushState s).2 with
    | Skipped | Uncaught _ => requests s
    | _ => requests s ++ [url]
    end.
Proof.
  by_path b url pushState s; subst; fields; reflexivity.
Qed.

Lemma navigateTo_false_frame b url s :
  history_entries (navigateTo b url false s).1 = history_entries s /\
  history_position (navigateTo b url false s).1 = history_position s /\
  location_href (navigateTo b url false s).1 = location_href s /\
  currentIndex (navigateTo b url false s).1 = currentIndex s /\
  scrollX (navigateTo b url false s).1 = scrollX s /\
  scrollY (navigateTo b url false s).1 = scrollY s.
Proof.
  by_path b url false s; try discriminate; fields;
    repeat apply conj; reflexivity.
Qed.


(** [navigateTo(url, false)] never writes the session history, the location,
    the counter or the scroll offset, whatever its outcome. *)
Theorem navigateTo_without_push_keeps_history b url s :
  let s' := (navigateTo b url false s).1 in
  history_entries s' = history_entries s /\
  history_position s' = history_position s /\
  location_href s' = location_href s /\
  currentIndex s' = currentIndex s /\
  scrollX s' = scrollX s /\ scrollY s' = scrollY s.
Proof. cbv zeta. apply navigateTo_false_frame. Qed.









Lemma constructor_without_main_is_inert_aux b options s :
  querySelector b (mainContentSelector (merge_config options)) = None ->
  mainContent (constructor b options s) = None /\
  location_href (constructor b options s) = location_href s.
Proof.
  intros Hq. unfold constructor, init. fields. rewrite Hq. fields.
  split; reflexivity.
Qed.

(** An instance whose [init] found no content element is not safe to call:
    [navigateTo] on it, unless stopped by the guard, throws out of its own
    catch block, having issued no request and changed nothing. *)
Theorem navigateTo_on_inert_instance b options s0 url pushState :
  querySelector b (mainContentSelector (merge_config options)) = None ->
  (url = location_href s0 -> pushState = true) ->
  let s := constructor b options s0 in
  navigateTo b url pushState s = (s, Uncaught TypeError).
Proof.
  intros Hq Hg. cbv zeta.
  destruct (constructor_without_main_is_inert_aux b options s0 Hq) as (Hm & Hl).
  unfold navigateTo. rewrite Hl, (guard_false _ _ _ Hg), Hm. reflexivity.
Qed.

Lemma navigateTo_on_inert_instance_witness :
  let b := Site.browser_without_main in
  let s := constructor b Site.no_options Site.loaded in
  querySelector b (mainContentSelector (merge_config Site.no_options)) = None /\
  navigateTo b Site.about_url true s = (s, Uncaught TypeError) /\
  requests s = [].
Proof.
  cbv zeta. split; [reflexivity|]. split; [|reflexivity].
  apply (navigateTo_on_inert_instance Site.browser_without_main Site.no_options
           Site.loaded Site.about_url true eq_refl).
  intros _. reflexivity.
Defined.

(** *** Initialisation, when the content element is there *)

(** When the selector matches element [n], the constructor attaches both
    listeners, sets the counter to 0 and overwrites the active slot, and no
    other, with the live page: location, title, the markup of [n], the
    scroll offset, [isInitialState] true and [index] 0.  This is the object
    [getInitialState] returns right after.  The document, the location and
    the traces are untouched. *)
Theorem constructor_writes_initial_slot b options s n :
  querySelector b (mainContentSelector (merge_config options)) = Some n ->
  (history_position s < length (history_entries s))%nat ->
  let s' := constructor b options s in
  let st := {| st_url := location_href s; st_title := document_title s;
               st_content := Some (read_innerHTML n s);
               st_scrollPosition := Some (scrollX s, scrollY s);
               st_isInitialState := true; st_index := 0 |} in
  mainContent s' = Some n /\
  popstate_listener s' = true /\ click_listener s' = true /\
  currentIndex s' = 0 /\
  history_position s' = history_position s /\
  length (history_entries s') = length (history_entries s) /\
  history_entries s' !! history_position s
    = Some (mkHistoryEntry (Some st) (location_href s)) /\
  (forall k, k <> history_position s ->
     history_entries s' !! k = history_entries s !! k) /\
  getInitialState s' = inr st /\
  dom s' = dom s /\ location_href s' = location_href s /\
  document_title s' = document_title s /\
  requests s' = requests s /\ dispatched s' = dispatched s.
Proof.
  intros Hq Hpos. cbv zeta.
  destruct (constructor_started b options s n Hq)
    as (Hm & Hi & Hp & Hc & Hd & Hl & Hhp & He).
  unfold getInitialState. rewrite Hm. unfold read_innerHTML. rewrite Hd, Hl.
  rewrite He, length_insert.
  assert (Hrest : document_title (constructor b options s) = document_title s /\
                  scrollX (constructor b options s) = scrollX s /\
                  scrollY (constructor b options s) = scrollY s /\
                  requests (constructor b options s) = requests s /\
                  dispatched (constructor b options s) = dispatched s).
  { unfold constructor, init. fields. rewrite Hq. fields.
    repeat apply conj; reflexivity. }
  destruct Hrest as (Ht & Hx & Hy & Hr & Hdi). rewrite Ht, Hx, Hy.
  repeat apply conj; try assumption; try reflexivity.
  - apply list_lookup_insert_eq. exact Hpos.
  - intros k Hk. apply list_lookup_insert_ne. congruence.
Qed.

Lemma constructor_writes_initial_slot_witness :
  let s' := constructor Site.browser Site.no_options Site.loaded in
  let st := {| st_url := Site.index_url; st_title := "Home";
               st_content := Some "Home"; st_scrollPosition := Some (0, 0);
               st_isInitialState := true; st_index := 0 |} in
  querySelector Site.browser (mainContentSelector (merge_config Site.no_options))
    = Some 1%nat /\
  popstate_listener s' = true /\ click_listener s' = true /\
  history_entries s' = [mkHistoryEntry (Some st) Site.index_url] /\
  getInitialState s' = inr st.
Proof.
  assert (Hpos : (history_position Site.loaded
                  < length (history_entries Site.loaded))%nat)
    by (cbn [Site.loaded history_position history_entries length]; lia).
  pose proof (constructor_writes_initial_slot Site.browser Site.no_options
                Site.loaded 1%nat eq_refl Hpos) as H.
  cbv zeta in H. destruct H as (_ & H2 & H3 & _ & _ & _ & _ & _ & H9 & _).
  cbv zeta. split; [reflexivity|]. split; [exact H2|]. split; [exact H3|].
  split; [reflexivity|exact H9].
Defined.

(** *** [initializeEventListeners] *)




(** *** Clicks that are not on an internal anchor *)

(** A click with no enclosing anchor, or on an anchor of another host, never
    changes the state, never calls [preventDefault] and issues no request;
    and clicking the anchor again changes nothing more. *)
Theorem handleClick_elsewhere b e s :
  (forall link, closest_a e = Some link -> a_host link <> location_host s) ->
  (handleClick b e s).1.1 = s /\
  (handleClick b e s).2 = Ignored /\
  defaultPrevented (handleClick b e s).1.2 = defaultPrevented e /\
  handleClick b (handleClick b e s).1.2 s = handleClick b e s.
Proof.
  intros Hext. destruct (closest_a e) as [link|] eqn:Hl.
  - assert (Heq : handleClick b e s =
        (s,
         mkClickEvent
           (Some (mkAnchor (a_host link) (a_href link) "_blank"
                    "noopener noreferrer")) (defaultPrevented e),
         Ignored)).
    { unfold handleClick, isInternalLink. rewrite Hl.
      rewrite bool_decide_eq_false_2 by (apply Hext; reflexivity).
      reflexivity. }
    rewrite Heq. cbn [fst snd defaultPrevented].
    repeat apply conj; try reflexivity.
    unfold handleClick, isInternalLink. cbn [closest_a a_host].
    rewrite bool_decide_eq_false_2 by (apply Hext; reflexivity).
    reflexivity.
  - assert (Heq : handleClick b e s = (s, e, Ignored)).
    { unfold handleClick. rewrite Hl. reflexivity. }
    rewrite Heq. cbn [fst snd]. repeat apply conj; try reflexivity. exact Heq.
Qed.

Lemma handleClick_elsewhere_witness :
  let e := mkClickEvent
             (Some (Site.link_to "elsewhere.example" "https://elsewhere.example/"))
             false in
  (handleClick Site.browser e Site.started).1.1 = Site.started /\
  (handleClick Site.browser (mkClickEvent None false) Site.started).1.1
    = Site.started /\
  handleClick Site.browser (handleClick Site.browser e Site.started).1.2
      Site.started
    = handleClick Site.browser e Site.started.
Proof.
  cbv zeta.
  destruct (handleClick_elsewhere Site.browser
              (mkClickEvent
                 (Some (Site.link_to "elsewhere.example"
                          "https://elsewhere.example/")) false) Site.started)
    as (H1 & _ & _ & H4).
  { intros link [= <-]. discriminate. }
  destruct (handleClick_elsewhere Site.browser (mkClickEvent None false)
              Site.started) as (H5 & _).
  { intros link [=]. }
  repeat apply conj; assumption.
Defined.

(** *** The handler of [popstate] and the session history *)



(** *** The session history of a tab the class has run in from the start *)















(** *** There and back *)






(** A click on an internal anchor whose page cannot be loaded is swallowed:
    the default navigation is suppressed all the same, and the page, the
    location and the session history stay as they were, with nothing
    dispatched. *)
Theorem handleClick_failed_load_is_swallowed b link prevented s n el e :
  mainContent s = Some n ->
  dom s !! n = Some el ->
  a_host link = location_host s ->
  fails b s (a_href link) e ->
  let r := handleClick b (mkClickEvent (Some link) prevented) s in
  r.2 = Caught e /\
  r.1.2 = mkClickEvent (Some link) true /\
  read_innerHTML n r.1.1 = read_innerHTML n s /\
  document_title r.1.1 = document_title s /\
  location_href r.1.1 = location_href s /\
  history_entries r.1.1 = history_entries s /\
  history_position r.1.1 = history_position s /\
  dispatched r.1.1 = dispatched s.
Proof.
  intros Hn Hel Hh Hf. cbv zeta.
  unfold handleClick, isInternalLink. cbn [closest_a].
  rewrite bool_decide_eq_true_2 by exact Hh.
  rewrite (navigateTo_fails b (a_href link) true s n e Hn (fun _ => eq_refl) Hf).
  unfold read_innerHTML. fields. rewrite !lookup_alter_eq, Hel.
  repeat apply conj; reflexivity.
Qed.

Lemma handleClick_failed_load_is_swallowed_witness :
  let b := Site.browser in
  let s := Site.started in
  let link := Site.link_to "example.org" Site.broken_url in
  let r := handleClick b (mkClickEvent (Some link) false) s in
  fails b s Site.broken_url (HttpError 500) /\
  r.2 = Caught (HttpError 500) /\
  defaultPrevented r.1.2 = true /\
  read_innerHTML 1 r.1.1 = "Home" /\
  location_href r.1.1 = Site.index_url.
Proof.
  assert (Hel : dom Site.started !! 1%nat = Some (mkElement "MAIN" "Home" "" None))
    by reflexivity.
  assert (Hf : fails Site.browser Site.started Site.broken_url (HttpError 500)).
  { apply (fails_http _ _ _ (mkResponse 500 "oops")); reflexivity. }
  pose proof (handleClick_failed_load_is_swallowed Site.browser
                (Site.link_to "example.org" Site.broken_url) false Site.started
                1%nat _ _ eq_refl Hel eq_refl Hf) as H.
  cbv zeta in H. destruct H as (H1 & H2 & H3 & _ & H5 & _).
  cbv zeta. split; [exact Hf|]. split; [exact H1|].
  split; [exact (f_equal defaultPrevented H2)|]. split; [exact H3|exact H5].
Defined.
